(** * Broad-crested weir discharge: the notebook's code cell, embedded in Rocq

    The code cell of [BroadcrestedWeir.ipynb] defines the constant [g], the
    discharge function [broad_crested_weir_Q] and the plotting callback
    [plot_broad_weir], which samples the head with [np.linspace] and maps the
    discharge function over the samples.

    The program is arithmetic on Python/NumPy floats.  It is embedded once,
    over an interface [Arith] of the float operations it uses, and read in two
    arithmetics:

    - [xreal]: exact real arithmetic with one extra value [NaN] for an
      operation outside its domain (the square root of a negative number, a
      division by zero).  The algebraic laws of the formula, which hold on
      doubles up to rounding, are stated here.
    - [float]: IEEE 754 binary64 with round-to-nearest-even, Rocq's primitive
      floats, which is the arithmetic Python and NumPy run.  The program is
      evaluated here on the scenarios of the specification and on the
      positions of the sliders, and the signs of its results are followed
      through rounding for every double, from the specification of the
      operations in [FloatAxioms].  *)

From Stdlib Require Floats Uint63.
Import PrimFloat.
From Stdlib Require Import Bool List ZArith QArith Qreals Reals Lra Lia.
Import ListNotations.

Set Warnings "-inexact-float".

(** ** The arithmetic interface *)

(** The operations on floats the code cell uses, with the two conversions
    Python performs silently: an [int] operand becomes a float ([of_int]), and
    a decimal literal of the source text is read as a float ([lit]). *)
Class Arith (F : Type) : Type := {
  add : F -> F -> F;
  sub : F -> F -> F;
  mul : F -> F -> F;
  div : F -> F -> F;
  np_sqrt : F -> F;
  of_int : Z -> F;
  lit : Q -> F;
  eqb : F -> F -> bool;
  ltb : F -> F -> bool;
  leb : F -> F -> bool;
  is_nan : F -> bool
}.

Declare Scope arith_scope.
Delimit Scope arith_scope with A.
Infix "+" := add : arith_scope.
Infix "-" := sub : arith_scope.
Infix "*" := mul : arith_scope.
Infix "/" := div : arith_scope.

(** ** Exact arithmetic with a NaN *)

Inductive xreal : Type :=
| Num (r : R)
| NaN.

Definition xlift2 (f : R -> R -> R) (x y : xreal) : xreal :=
  match x, y with
  | Num a, Num b => Num (f a b)
  | _, _ => NaN
  end.

Definition xdiv (x y : xreal) : xreal :=
  match x, y with
  | Num a, Num b => if Req_dec_T b 0 then NaN else Num (a / b)
  | _, _ => NaN
  end.

(** [np.sqrt] returns nan (with a warning, no exception) below zero. *)
Definition xsqrt (x : xreal) : xreal :=
  match x with
  | Num a => if Rle_dec 0 a then Num (sqrt a) else NaN
  | NaN => NaN
  end.

Definition xeqb (x y : xreal) : bool :=
  match x, y with
  | Num a, Num b => if Req_dec_T a b then true else false
  | _, _ => false
  end.

Definition xltb (x y : xreal) : bool :=
  match x, y with
  | Num a, Num b => if Rlt_dec a b then true else false
  | _, _ => false
  end.

Definition xleb (x y : xreal) : bool :=
  match x, y with
  | Num a, Num b => if Rle_dec a b then true else false
  | _, _ => false
  end.

Definition xis_nan (x : xreal) : bool :=
  match x with
  | Num _ => false
  | NaN => true
  end.

#[export] Instance xreal_arith : Arith xreal := {|
  add := xlift2 Rplus;
  sub := xlift2 Rminus;
  mul := xlift2 Rmult;
  div := xdiv;
  np_sqrt := xsqrt;
  of_int := fun z => Num (IZR z);
  lit := fun q => Num (Q2R q);
  eqb := xeqb;
  ltb := xltb;
  leb := xleb;
  is_nan := xis_nan
|}.

(** The order of the numbers of [xreal]; nothing is below or above [NaN]. *)
Definition xlt (x y : xreal) : Prop :=
  match x, y with
  | Num a, Num b => (a < b)%R
  | _, _ => False
  end.

Definition xle (x y : xreal) : Prop :=
  match x, y with
  | Num a, Num b => (a <= b)%R
  | _, _ => False
  end.

(** ** Binary64 *)

(** [float(n)] for the integers of this program (array indices, 2, 299),
    all far below [2^53] and so exact. *)
Definition b64_of_Z (z : Z) : PrimFloat.float :=
  match z with
  | Z0 => 0%float
  | Zpos _ => PrimFloat.of_uint63 (Uint63.of_Z z)
  | Zneg p => PrimFloat.opp (PrimFloat.of_uint63 (Uint63.of_Z (Zpos p)))
  end.

(** A literal [n/d] whose numerator and denominator are below [2^53] is the
    correctly rounded quotient of two exact floats, which is the double the
    Python parser reads (see [lit_b64_g] and [lit_b64_eps]). *)
Definition b64_lit (q : Q) : PrimFloat.float :=
  PrimFloat.div (b64_of_Z (Qnum q)) (b64_of_Z (Zpos (Qden q))).

#[export] Instance b64_arith : Arith PrimFloat.float := {|
  add := PrimFloat.add;
  sub := PrimFloat.sub;
  mul := PrimFloat.mul;
  div := PrimFloat.div;
  np_sqrt := PrimFloat.sqrt;
  of_int := b64_of_Z;
  lit := b64_lit;
  eqb := PrimFloat.eqb;
  ltb := PrimFloat.ltb;
  leb := PrimFloat.leb;
  is_nan := PrimFloat.is_nan
|}.

(** ** The code cell *)

Section Weir.

Context {F : Type} `{Arith F}.

(** [g = 9.81] *)
Definition g : F := lit 9.81.

(** [def broad_crested_weir_Q(b, H, Cd): return Cd * b * H * np.sqrt(2 * g * H)]
    Python's [*] associates to the left. *)
Definition broad_crested_weir_Q (b H Cd : F) : F :=
  (Cd * b * H * np_sqrt (of_int 2 * g * H))%A.

(** [y[-1] = stop] on a non-empty array. *)
Definition set_last (y : list F) (stop : F) : list F :=
  match y with
  | [] => []
  | _ :: _ => removelast y ++ [stop]
  end.

(** [np.linspace(start, stop, num)] with NumPy's defaults ([endpoint=True],
    float result), as NumPy computes it:
<<
    div = num - 1
    delta = stop - start
    y = arange(0, num)                       # as floats
    if div > 0:
        step = delta / div
        if step == 0: y /= div; y *= delta   # denormal step
        else:         y *= step
    else:
        y = y * delta
    y += start
    if num > 1: y[-1] = stop
>> *)
Definition linspace (start stop : F) (num : nat) : list F :=
  let div_ := of_int (Z.of_nat (num - 1)) in
  let delta := (stop - start)%A in
  let y := map (fun i => of_int (Z.of_nat i)) (seq 0 num) in
  let y :=
    if (0 <? num - 1)%nat then
      let step := (delta / div_)%A in
      if eqb step (of_int 0)
      then map (fun v => (v / div_ * delta)%A) y
      else map (fun v => (v * step)%A) y
    else map (fun v => (v * delta)%A) y in
  let y := map (fun v => (v + start)%A) y in
  if (1 <? num)%nat then set_last y stop else y.

(** [H_vals = np.linspace(0.01, H_max, 300)] *)
Definition H_vals (H_max : F) : list F := linspace (lit 0.01) H_max 300.

(** [Q_vals = broad_crested_weir_Q(b, H_vals, Cd)]: the arithmetic of the
    function broadcasts over the array, element by element. *)
Definition Q_vals (Cd b H_max : F) : list F :=
  map (fun H => broad_crested_weir_Q b H Cd) (H_vals H_max).

(** [plot_broad_weir(Cd, b, H_max)]: the two arrays it hands to [plt.plot],
    heads first.  Drawing the figure is outside the model. *)
Definition plot_broad_weir (Cd b H_max : F) : list F * list F :=
  (H_vals H_max, Q_vals Cd b H_max).

(** The sample curve as the sequence of (head, discharge) pairs. *)
Definition curve (Cd b H_max : F) : list (F * F) :=
  combine (fst (plot_broad_weir Cd b H_max)) (snd (plot_broad_weir Cd b H_max)).

End Weir.

(** Strictly increasing lists, by a relation. *)
Fixpoint increasing {A : Type} (lt : A -> A -> Prop) (l : list A) : Prop :=
  match l with
  | [] => True
  | x :: l' =>
      match l' with
      | [] => True
      | y :: _ => lt x y /\ increasing lt l'
      end
  end.

(** The cell [i] of [np.linspace(start, stop, num)] before the last cell is
    overwritten: what the array operations of [linspace] do to index [i]. *)
Definition linspace_body {F : Type} `{Arith F}
  (start stop : F) (num : nat) (i : nat) : F :=
  let div_ := of_int (Z.of_nat (num - 1)) in
  let delta := (stop - start)%A in
  let v := of_int (Z.of_nat i) in
  ((if (0 <? num - 1)%nat then
      if eqb (delta / div_)%A (of_int 0)
      then (v / div_ * delta)%A
      else (v * (delta / div_))%A
    else (v * delta)%A) + start)%A.

(** ** Vocabulary of the properties *)

(** [Q = Cd * b * H * sqrt(2 * g * H)] with [g = 9.81], over the reals. *)
Definition Q_formula (Cd b H : R) : R :=
  (Cd * b * H * sqrt (2 * 9.81 * H))%R.


(** [lo < x < hi], decided in the arithmetic at hand. *)
Definition strictly_between {F : Type} `{Arith F} (lo hi x : F) : bool :=
  ltb lo x && ltb x hi.


(** The difference of every two consecutive cells is within [tol] of
    [step]. *)
Fixpoint evenly_spaced {F : Type} `{Arith F} (step tol : F) (l : list F) : bool :=
  match l with
  | [] => true
  | x :: l' =>
      match l' with
      | [] => true
      | y :: _ =>
          leb (y - x - step)%A tol && leb (step - (y - x))%A tol
          && evenly_spaced step tol l'
      end
  end.

(** ** The sliders

    [interact] calls [plot_broad_weir] with the positions of three
    [FloatSlider]s: [Cd] from 0.4 to 0.7 by 0.01 (initially 0.5), [b] from
    0.1 to 5.0 by 0.1 (initially 1.0), [H_max] from 0.1 to 2.0 by 0.05
    (initially 1.0). *)
Definition H_max_positions : list Q :=
  map (fun k => (Z.of_nat (5 * k) # 100)%Q) (seq 2 39).






(** The sign of a double in the specification format: zero or above, and
    strictly above zero.  The infinity above counts; nan does not. *)
Definition sf_nonneg (x : SpecFloat.spec_float) : bool :=
  match x with
  | SpecFloat.S754_zero _ => true
  | SpecFloat.S754_infinity s => negb s
  | SpecFloat.S754_nan => false
  | SpecFloat.S754_finite s _ _ => negb s
  end.

Definition sf_positive (x : SpecFloat.spec_float) : bool :=
  match x with
  | SpecFloat.S754_infinity s => negb s
  | SpecFloat.S754_finite s _ _ => negb s
  | _ => false
  end.

(** A double of sign [s] that is not a zero: finite or infinite. *)
Definition sf_nonzero_signed (s : bool) (x : SpecFloat.spec_float) : bool :=
  match x with
  | SpecFloat.S754_infinity s' => Bool.eqb s s'
  | SpecFloat.S754_finite s' _ _ => Bool.eqb s s'
  | _ => false
  end.

(** Classes of doubles in the specification format. *)
Definition sf_is_nan (x : SpecFloat.spec_float) : bool :=
  match x with
  | SpecFloat.S754_nan => true
  | _ => false
  end.

Definition sf_is_zero (x : SpecFloat.spec_float) : bool :=
  match x with
  | SpecFloat.S754_zero _ => true
  | _ => false
  end.

Definition sf_is_pinf (x : SpecFloat.spec_float) : bool :=
  match x with
  | SpecFloat.S754_infinity s => negb s
  | _ => false
  end.

(** ** The interactive controls

    [interact(plot_broad_weir, Cd=FloatSlider(...), b=..., H_max=...)]
    draws the curve for the sliders' initial values and again on every
    change, with values between a slider's [min] and [max]. *)
Module FloatSlider.

Record t : Type := {
  value : Q;
  min : Q;
  max : Q;
  step : Q
}.

(** A real between the ends of the slider. *)
Definition in_range (s : t) (x : R) : Prop :=
  (Q2R (min s) <= x <= Q2R (max s))%R.

End FloatSlider.

(** [Cd=FloatSlider(value=0.5, min=0.4, max=0.7, step=0.01, ...)] *)
Definition Cd_slider : FloatSlider.t :=
  {| FloatSlider.value := 0.5; FloatSlider.min := 0.4;
     FloatSlider.max := 0.7; FloatSlider.step := 0.01 |}.

(** [b=FloatSlider(value=1.0, min=0.1, max=5.0, step=0.1, ...)] *)
Definition b_slider : FloatSlider.t :=
  {| FloatSlider.value := 1.0; FloatSlider.min := 0.1;
     FloatSlider.max := 5.0; FloatSlider.step := 0.1 |}.

(** [H_max=FloatSlider(value=1.0, min=0.1, max=2.0, step=0.05, ...)] *)
Definition H_max_slider : FloatSlider.t :=
  {| FloatSlider.value := 1.0; FloatSlider.min := 0.1;
     FloatSlider.max := 2.0; FloatSlider.step := 0.05 |}.

(** * Properties *)

Local Open Scope R_scope.

(** ** Exact arithmetic: the discharge function *)

Lemma g_exact : g = Num 9.81.
Proof. reflexivity. Qed.

Lemma xsqrt_Num (a : R) : 0 <= a -> xsqrt (Num a) = Num (sqrt a).
Proof.
  intros Ha. unfold xsqrt.
  destruct (Rle_dec 0 a) as [_ | Hn]; [reflexivity | contradiction].
Qed.

Lemma xsqrt_neg (a : R) : a < 0 -> xsqrt (Num a) = NaN.
Proof.
  intros Ha. unfold xsqrt.
  destruct (Rle_dec 0 a) as [Hle | _]; [lra | reflexivity].
Qed.

Lemma xdiv_Num (a b : R) : b <> 0 -> xdiv (Num a) (Num b) = Num (a / b).
Proof.
  intros Hb. unfold xdiv.
  destruct (Req_dec_T b 0) as [Hz | _]; [contradiction | reflexivity].
Qed.

Lemma xeqb_true (a b : R) : xeqb (Num a) (Num b) = true -> a = b.
Proof.
  unfold xeqb. destruct (Req_dec_T a b) as [Heq | _]; [trivial | discriminate].
Qed.

(** On a head that is not negative the code returns the number of the
    formula; below zero the square root, and with it the product, is NaN. *)
Lemma weir_Q_exact (b H Cd : R) :
  0 <= H ->
  broad_crested_weir_Q (Num b) (Num H) (Num Cd) = Num (Q_formula Cd b H).
Proof.
  intros HH. unfold broad_crested_weir_Q, Q_formula. rewrite g_exact.
  cbn -[xsqrt]. rewrite xsqrt_Num by lra. reflexivity.
Qed.

Lemma weir_Q_negative_head (b H Cd : R) :
  H < 0 ->
  broad_crested_weir_Q (Num b) (Num H) (Num Cd) = NaN.
Proof.
  intros HH. unfold broad_crested_weir_Q. rewrite g_exact.
  cbn -[xsqrt]. rewrite xsqrt_neg by lra. reflexivity.
Qed.

Lemma sqrt_between (x lo hi : R) :
  0 <= lo -> 0 <= hi -> lo * lo < x -> x < hi * hi -> lo < sqrt x < hi.
Proof.
  intros Hlo Hhi H1 H2.
  assert (Hx : 0 <= x) by nra.
  pose proof (sqrt_pos x) as Hs.
  pose proof (sqrt_sqrt x Hx) as Hss.
  split; nra.
Qed.

Lemma Q_formula_increasing (Cd b H1 H2 : R) :
  0 < Cd -> 0 < b -> 0 < H1 -> H1 < H2 ->
  Q_formula Cd b H1 < Q_formula Cd b H2.
Proof.
  intros HCd Hb H1pos Hlt. unfold Q_formula.
  assert (Hs : sqrt (2 * 9.81 * H1) < sqrt (2 * 9.81 * H2))
    by (apply sqrt_lt_1; lra).
  assert (Hs1 : 0 < sqrt (2 * 9.81 * H1)) by (apply sqrt_lt_R0; lra).
  assert (Hc : 0 < Cd * b) by nra.
  assert (Hm : Cd * b * H1 < Cd * b * H2) by nra.
  assert (0 < Cd * b * H1) by nra.
  nra.
Qed.



(** ** Arrays: writing the last cell, and reading by index *)

Section Arrays.

Context {A : Type}.

Lemma removelast_S_length (x : A) (y : list A) :
  S (length (removelast (x :: y))) = length (x :: y).
Proof.
  revert x. induction y as [| z y IH]; intros x.
  - reflexivity.
  - change (removelast (x :: z :: y)) with (x :: removelast (z :: y)).
    cbn [length]. rewrite IH. reflexivity.
Qed.

Lemma nth_removelast (y : list A) (i : nat) (d : A) :
  (S i < length y)%nat -> nth i (removelast y) d = nth i y d.
Proof.
  revert i. induction y as [| x y IH]; intros i Hi.
  - cbn in Hi. lia.
  - destruct y as [| z y].
    + cbn in Hi. lia.
    + change (removelast (x :: z :: y)) with (x :: removelast (z :: y)).
      destruct i as [| i]; [reflexivity |].
      cbn [nth]. apply IH. cbn [length] in *. lia.
Qed.

Lemma set_last_length (y : list A) (s : A) :
  length (set_last y s) = length y.
Proof.
  destruct y as [| x y]; [reflexivity |].
  unfold set_last. rewrite length_app.
  pose proof (removelast_S_length x y) as Hl. cbn [length] in *. lia.
Qed.

Lemma nth_set_last_before (y : list A) (s d : A) (i : nat) :
  (S i < length y)%nat -> nth i (set_last y s) d = nth i y d.
Proof.
  intros Hi. destruct y as [| x y]; [cbn in Hi; lia |].
  unfold set_last.
  pose proof (removelast_S_length x y) as Hl.
  rewrite app_nth1 by lia.
  apply nth_removelast. exact Hi.
Qed.

Lemma nth_set_last_last (y : list A) (s d : A) :
  y <> [] -> nth (length y - 1) (set_last y s) d = s.
Proof.
  intros Hy. destruct y as [| x y]; [contradiction |].
  unfold set_last.
  pose proof (removelast_S_length x y) as Hl.
  rewrite app_nth2 by lia.
  replace (length (x :: y) - 1 - length (removelast (x :: y)))%nat with 0%nat
    by lia.
  reflexivity.
Qed.

(** A list is increasing when each cell is below the next one. *)
Lemma increasing_by_index (lt : A -> A -> Prop) (l : list A) (d : A) :
  (forall i, (S i < length l)%nat -> lt (nth i l d) (nth (S i) l d)) ->
  increasing lt l.
Proof.
  induction l as [| x l IH]; intros Hstep; [exact I |].
  destruct l as [| y l]; [exact I |].
  split.
  - apply (Hstep 0%nat). cbn [length]. lia.
  - apply IH. intros i Hi. apply (Hstep (S i)). cbn [length] in *. lia.
Qed.


End Arrays.

(** ** [np.linspace] in any arithmetic *)

Section Linspace.

Context {F : Type} `{Arith F}.

Lemma linspace_unfold (start stop : F) (num : nat) :
  linspace start stop num =
  let y := map (linspace_body start stop num) (seq 0 num) in
  if (1 <? num)%nat then set_last y stop else y.
Proof.
  unfold linspace, linspace_body. cbv zeta.
  destruct (0 <? num - 1)%nat; [destruct (eqb _ _) |];
    rewrite !map_map; reflexivity.
Qed.

Lemma linspace_length (start stop : F) (num : nat) :
  length (linspace start stop num) = num.
Proof.
  rewrite linspace_unfold. cbv zeta.
  destruct (1 <? num)%nat.
  - rewrite set_last_length, length_map, length_seq. reflexivity.
  - rewrite length_map, length_seq. reflexivity.
Qed.

(** Every cell but the last holds the value computed for its index. *)
Lemma linspace_nth_before (start stop d : F) (num i : nat) :
  (S i < num)%nat ->
  nth i (linspace start stop num) d = linspace_body start stop num i.
Proof.
  intros Hi. rewrite linspace_unfold. cbv zeta.
  assert (Hn : (1 <? num)%nat = true) by (apply Nat.ltb_lt; lia).
  rewrite Hn.
  rewrite nth_set_last_before by (rewrite length_map, length_seq; lia).
  rewrite (nth_indep _ d (linspace_body start stop num 0))
    by (rewrite length_map, length_seq; lia).
  rewrite map_nth. rewrite seq_nth by lia. reflexivity.
Qed.

(** The last cell holds [stop] itself, not a computed value. *)
Lemma linspace_nth_last (start stop d : F) (num : nat) :
  (1 < num)%nat ->
  nth (num - 1) (linspace start stop num) d = stop.
Proof.
  intros Hn. rewrite linspace_unfold. cbv zeta.
  assert (Hb : (1 <? num)%nat = true) by (apply Nat.ltb_lt; lia).
  rewrite Hb.
  set (y := map (linspace_body start stop num) (seq 0 num)).
  assert (Hlen : length y = num) by (unfold y; rewrite length_map, length_seq; reflexivity).
  rewrite <- Hlen at 1.
  apply nth_set_last_last.
  intros Hy. rewrite Hy in Hlen. cbn in Hlen. lia.
Qed.

Lemma H_vals_length (H_max : F) : length (H_vals H_max) = 300%nat.
Proof. apply linspace_length. Qed.

Lemma Q_vals_length (Cd b H_max : F) : length (Q_vals Cd b H_max) = 300%nat.
Proof. unfold Q_vals. rewrite length_map. apply H_vals_length. Qed.

End Linspace.

(** ** Exact arithmetic: the head samples *)

(** The value NumPy computes for cell [i] of [np.linspace(0.01, H_max, 300)],
    in exact arithmetic: both branches of the step test give the same
    number. *)
Lemma linspace_body_exact (H_max : R) (i : nat) :
  linspace_body (Num 0.01) (Num H_max) 300 i =
  Num (0.01 + INR i * ((H_max - 0.01) / 299)).
Proof.
  unfold linspace_body. cbv zeta.
  change (300 - 1)%nat with 299%nat.
  change (0 <? 299)%nat with true. cbv iota.
  change (Z.of_nat 299) with 299%Z.
  rewrite INR_IZR_INZ.
  cbn [sub add mul div of_int eqb xreal_arith xlift2].
  rewrite !xdiv_Num by lra.
  cbn [xlift2].
  destruct (xeqb (Num ((H_max - 0.01) / 299)) (Num 0)) eqn:Hstep;
    cbn [xlift2]; f_equal.
  - apply xeqb_true in Hstep.
    assert (Hd : H_max - 0.01 = 0) by lra. rewrite Hd. lra.
  - lra.
Qed.

Lemma H_vals_exact_nth (H_max : R) (i : nat) :
  (i < 300)%nat ->
  nth i (H_vals (Num H_max)) NaN = Num (0.01 + INR i * ((H_max - 0.01) / 299)).
Proof.
  intros Hi. unfold H_vals. change (lit 0.01) with (Num 0.01).
  destruct (Nat.eq_dec i 299) as [-> | Hne].
  - change 299%nat with (300 - 1)%nat at 1.
    rewrite linspace_nth_last by lia.
    f_equal. change (INR 299) with (INR (Z.to_nat 299)).
    rewrite INR_IZR_INZ. change (Z.of_nat (Z.to_nat 299)) with 299%Z. lra.
  - rewrite linspace_nth_before by lia. apply linspace_body_exact.
Qed.

Lemma INR_index_bounds (i : nat) : (i < 300)%nat -> 0 <= INR i <= 299.
Proof.
  intros Hi. split; [apply pos_INR |].
  replace 299 with (INR 299).
  - apply le_INR. lia.
  - rewrite INR_IZR_INZ. reflexivity.
Qed.

Lemma H_vals_exact_In (H_max : R) (H : xreal) :
  In H (H_vals (Num H_max)) ->
  exists i, (i < 300)%nat /\ H = Num (0.01 + INR i * ((H_max - 0.01) / 299)).
Proof.
  intros Hin. destruct (In_nth _ _ NaN Hin) as [i [Hi Hnth]].
  rewrite H_vals_length in Hi. exists i. split; [exact Hi |].
  rewrite <- Hnth. apply H_vals_exact_nth. exact Hi.
Qed.

Lemma H_vals_exact_first (H_max : R) :
  nth 0 (H_vals (Num H_max)) NaN = Num 0.01.
Proof.
  rewrite H_vals_exact_nth by lia. f_equal. cbn [INR]. lra.
Qed.

Lemma H_vals_exact_last (H_max : R) :
  nth 299 (H_vals (Num H_max)) NaN = Num H_max.
Proof.
  unfold H_vals. change 299%nat with (300 - 1)%nat.
  apply linspace_nth_last. lia.
Qed.

Lemma H_vals_exact_In_first (H_max : R) : In (Num 0.01) (H_vals (Num H_max)).
Proof.
  assert (Hi : (0 < length (H_vals (Num H_max)))%nat)
    by (rewrite H_vals_length; lia).
  pose proof (nth_In _ NaN Hi) as Hin.
  rewrite H_vals_exact_first in Hin. exact Hin.
Qed.

Lemma H_vals_exact_In_last (H_max : R) : In (Num H_max) (H_vals (Num H_max)).
Proof.
  assert (Hi : (299 < length (H_vals (Num H_max)))%nat)
    by (rewrite H_vals_length; lia).
  pose proof (nth_In _ NaN Hi) as Hin.
  rewrite H_vals_exact_last in Hin. exact Hin.
Qed.

(** Consecutive samples differ by the step [(H_max - 0.01) / 299]. *)
Lemma H_vals_exact_spacing (H_max : R) (i : nat) :
  (i < 299)%nat ->
  exists h h' : R,
    nth i (H_vals (Num H_max)) NaN = Num h /\
    nth (S i) (H_vals (Num H_max)) NaN = Num h' /\
    h' - h = (H_max - 0.01) / 299.
Proof.
  intros Hi.
  exists (0.01 + INR i * ((H_max - 0.01) / 299)).
  exists (0.01 + INR (S i) * ((H_max - 0.01) / 299)).
  repeat split.
  - apply H_vals_exact_nth. lia.
  - apply H_vals_exact_nth. lia.
  - rewrite S_INR. lra.
Qed.

(** The samples stay between the two ends of the range. *)
Lemma H_vals_exact_range (H_max : R) (H : xreal) :
  0.01 <= H_max ->
  In H (H_vals (Num H_max)) -> xle (Num 0.01) H /\ xle H (Num H_max).
Proof.
  intros Hmax Hin.
  destruct (H_vals_exact_In H_max H Hin) as [i [Hi ->]].
  pose proof (INR_index_bounds i Hi) as [Hlo Hhi].
  cbn [xle]. split; nra.
Qed.


Lemma H_vals_exact_increasing (H_max : R) :
  0.01 < H_max -> increasing xlt (H_vals (Num H_max)).
Proof.
  intros Hmax. apply (increasing_by_index xlt _ NaN).
  intros i Hi. rewrite H_vals_length in Hi.
  rewrite !H_vals_exact_nth by lia.
  cbn [xlt]. rewrite S_INR. lra.
Qed.


(** ** Binary64: the code on doubles *)

(** The literals of the source are the doubles the Python parser reads. *)
Lemma lit_b64_g : lit 9.81 = 9.81%float.
Proof. reflexivity. Qed.

Lemma lit_b64_eps : lit 0.01 = 0.01%float.
Proof. reflexivity. Qed.

(** On doubles the function is the source expression, each operation rounded
    to nearest. *)
Lemma weir_Q_b64 (b H Cd : PrimFloat.float) :
  broad_crested_weir_Q b H Cd
  = (Cd * b * H * PrimFloat.sqrt (2 * 9.81 * H))%float.
Proof. reflexivity. Qed.

Lemma H_vals_b64_unit_first : nth 0 (H_vals 1.0%float) PrimFloat.nan = 0.01%float.
Proof. vm_compute. reflexivity. Qed.

Lemma H_vals_b64_unit_last : nth 299 (H_vals 1.0%float) PrimFloat.nan = 1.0%float.
Proof. vm_compute. reflexivity. Qed.

(** Consecutive samples of the default range differ by the step up to one
    unit in the last place of [1.0]. *)
Lemma H_vals_b64_unit_spacing :
  evenly_spaced ((1.0 - 0.01) / 299)%float 0x1p-52%float (H_vals 1.0%float) = true.
Proof. vm_compute. reflexivity. Qed.

(** On doubles, at every position of the [H_max] slider the samples start
    at 0.01 and end at [H_max]; they stay between the two, ends included;
    they increase strictly and are above zero. *)
Lemma H_vals_b64_slider_ends :
  forallb (fun q =>
             PrimFloat.eqb (nth 0 (H_vals (lit q)) PrimFloat.nan) 0.01
             && PrimFloat.eqb (nth 299 (H_vals (lit q)) PrimFloat.nan) (lit q))
          H_max_positions = true.
Proof. vm_compute. reflexivity. Qed.

Lemma H_vals_b64_slider_range :
  forallb (fun q =>
             forallb (fun H => PrimFloat.leb 0.01 H && PrimFloat.leb H (lit q))
                     (H_vals (lit q)))
          H_max_positions = true.
Proof. vm_compute. reflexivity. Qed.





(** ** Binary64: signs through rounding

    The operations on doubles are specified by [FloatAxioms] on the format
    of [SpecFloat].  Rounding never changes a sign and never makes a nan, so
    a product of positive doubles is zero or above (it may underflow to zero
    or overflow to infinity), and the square root of such a double is
    again zero or above. *)

Section Signs.

Import SpecFloat FloatOps FloatAxioms.

Lemma shr_1_nonneg (mrs : shr_record) :
  (0 <= shr_m mrs)%Z -> (0 <= shr_m (shr_1 mrs))%Z.
Proof.
  destruct mrs as [m r s]. cbn [shr_m]. intros Hm.
  destruct m as [| [p | p |] | p]; cbn; lia.
Qed.

Lemma iter_shr_1_nonneg (p : positive) (mrs : shr_record) :
  (0 <= shr_m mrs)%Z -> (0 <= shr_m (iter_pos shr_1 p mrs))%Z.
Proof.
  revert mrs. induction p as [p IH | p IH |]; intros mrs Hm; cbn [iter_pos].
  - apply IH, IH, shr_1_nonneg, Hm.
  - apply IH, IH, Hm.
  - apply shr_1_nonneg, Hm.
Qed.

Lemma shr_fexp_nonneg (pr em m e : Z) (l : location) :
  (0 <= m)%Z -> (0 <= shr_m (fst (shr_fexp pr em m e l)))%Z.
Proof.
  intros Hm. unfold shr_fexp, shr.
  assert (H0 : (0 <= shr_m (shr_record_of_loc m l))%Z)
    by (destruct l as [| []]; exact Hm).
  destruct (_ - e)%Z; cbn [fst]; try exact H0.
  apply iter_shr_1_nonneg, H0.
Qed.

Lemma round_nearest_even_nonneg (m : Z) (l : location) :
  (0 <= m)%Z -> (0 <= round_nearest_even m l)%Z.
Proof.
  intros Hm. unfold round_nearest_even.
  destruct l as [| []]; try destruct (Z.even m); lia.
Qed.

Lemma binary_round_aux_nonneg (pr em m e : Z) (l : location) :
  (0 <= m)%Z -> sf_nonneg (binary_round_aux pr em false m e l) = true.
Proof.
  intros Hm. unfold binary_round_aux.
  pose proof (shr_fexp_nonneg pr em m e l Hm) as H1.
  destruct (shr_fexp pr em m e l) as [mrs' e']. cbn [fst] in H1.
  pose proof (shr_fexp_nonneg pr em _ e' loc_Exact
                (round_nearest_even_nonneg _ (loc_of_shr_record mrs') H1)) as H2.
  destruct (shr_fexp pr em _ e' loc_Exact) as [mrs'' e'']. cbn [fst] in H2.
  destruct (shr_m mrs'') as [| p | p]; [reflexivity | | lia].
  destruct (e'' <=? em - pr)%Z; reflexivity.
Qed.

Lemma SFmul_positive_nonneg (pr em : Z) (x y : spec_float) :
  sf_positive x = true -> sf_positive y = true ->
  sf_nonneg (SFmul pr em x y) = true.
Proof.
  destruct x as [sx | sx | | sx mx ex], y as [sy | sy | | sy my ey];
    cbn [sf_positive]; try discriminate; intros Hx Hy;
    apply negb_true_iff in Hx, Hy; subst sx sy; cbn [SFmul xorb];
    try reflexivity.
  apply binary_round_aux_nonneg. lia.
Qed.

(** A finite positive double times one that is zero or above: no
    [0 * infinity] can arise. *)
Lemma SFmul_finite_nonneg (pr em : Z) (m : positive) (e : Z) (y : spec_float) :
  sf_nonneg y = true ->
  sf_nonneg (SFmul pr em (S754_finite false m e) y) = true.
Proof.
  destruct y as [sy | sy | | sy my ey]; cbn [sf_nonneg]; try discriminate;
    intros Hy; try (apply negb_true_iff in Hy; subst sy); cbn [SFmul xorb];
    try reflexivity.
  apply binary_round_aux_nonneg. lia.
Qed.

Lemma SFsqrt_nonneg (pr em : Z) (x : spec_float) :
  sf_nonneg x = true -> sf_nonneg (SFsqrt pr em x) = true.
Proof.
  destruct x as [s | s | | s m e]; cbn [sf_nonneg]; try discriminate;
    intros Hx; try (apply negb_true_iff in Hx; subst s); cbn [SFsqrt];
    try reflexivity.
  unfold SFsqrt_core_binary.
  set (m' := match (e - 2 * _)%Z with Z0 => _ | Zpos _ => _ | Zneg _ => _ end).
  pose proof (Z.sqrtrem_sqrt m') as Hq.
  destruct (Z.sqrtrem m') as [q r]. cbn [fst] in Hq.
  apply binary_round_aux_nonneg. rewrite Hq. apply Z.sqrt_nonneg.
Qed.

Lemma SFcompare_refl (x : spec_float) :
  sf_nonneg x = true -> SFcompare x x = Some Eq.
Proof.
  destruct x as [s | s | | s m e]; cbn [sf_nonneg]; try discriminate;
    intros Hx; try (apply negb_true_iff in Hx; subst s); cbn [SFcompare];
    try reflexivity.
  rewrite Z.compare_refl, Pos.compare_cont_refl. reflexivity.
Qed.

Lemma is_nan_nonneg (f : PrimFloat.float) :
  sf_nonneg (Prim2SF f) = true -> PrimFloat.is_nan f = false.
Proof.
  intros Hf. unfold PrimFloat.is_nan. rewrite eqb_spec. unfold SFeqb.
  rewrite SFcompare_refl by exact Hf. reflexivity.
Qed.

Lemma leb_zero_nonneg (f : PrimFloat.float) :
  sf_nonneg (Prim2SF f) = true -> (0 <=? f)%float = true.
Proof.
  intros Hf. rewrite leb_spec.
  change (Prim2SF 0) with (S754_zero false).
  destruct (Prim2SF f) as [s | s | | s m e]; cbn [sf_nonneg] in Hf;
    try discriminate; try (apply negb_true_iff in Hf; subst s); reflexivity.
Qed.

Lemma ltb_zero_positive (f : PrimFloat.float) :
  (0 <? f)%float = true -> sf_positive (Prim2SF f) = true.
Proof.
  rewrite ltb_spec. change (Prim2SF 0) with (S754_zero false).
  destruct (Prim2SF f) as [s | s | | s m e]; cbn; try discriminate;
    destruct s; (discriminate || reflexivity).
Qed.

(** A double strictly between zero and infinity is finite and positive. *)
Lemma positive_finite_b64 (f : PrimFloat.float) :
  (0 <? f)%float = true -> (f <? PrimFloat.infinity)%float = true ->
  exists m e, Prim2SF f = S754_finite false m e.
Proof.
  rewrite !ltb_spec. change (Prim2SF 0) with (S754_zero false).
  change (Prim2SF PrimFloat.infinity) with (S754_infinity false).
  destruct (Prim2SF f) as [s | s | | s m e]; cbn; try discriminate;
    destruct s; try discriminate; intros _ _.
  exists m, e. reflexivity.
Qed.

(** On every double [H > 0] the argument of the square root is zero or
    above and the square root is not nan. *)
Lemma sqrt_argument_b64 (H : PrimFloat.float) :
  (0 <? H)%float = true ->
  sf_nonneg (Prim2SF (2 * 9.81 * H)%float) = true
  /\ sf_nonneg (Prim2SF (PrimFloat.sqrt (2 * 9.81 * H))) = true.
Proof.
  intros HH. apply ltb_zero_positive in HH.
  assert (Harg : sf_nonneg (Prim2SF (2 * 9.81 * H)%float) = true).
  { rewrite mul_spec. apply SFmul_positive_nonneg; [reflexivity | exact HH]. }
  split; [exact Harg |].
  rewrite sqrt_spec. apply SFsqrt_nonneg, Harg.
Qed.

(** When moreover the product [Cd * b * H] is a positive finite double, the
    discharge is zero or above and not nan. *)
Lemma weir_Q_b64_nonneg (b H Cd : PrimFloat.float) :
  (0 <? H)%float = true ->
  (0 <? Cd * b * H)%float = true ->
  (Cd * b * H <? PrimFloat.infinity)%float = true ->
  sf_nonneg (Prim2SF (broad_crested_weir_Q b H Cd)) = true.
Proof.
  intros HH Hpos Hfin. rewrite weir_Q_b64.
  destruct (positive_finite_b64 _ Hpos Hfin) as [m [e Hp]].
  destruct (sqrt_argument_b64 H HH) as [_ Hroot].
  rewrite mul_spec, Hp. apply SFmul_finite_nonneg, Hroot.
Qed.

End Signs.

(** * The claims *)



(** C2. The head samples are 300 values linearly spaced from 0.01 to
    [H_max] inclusive: in exact arithmetic, for every [H_max], the array has
    300 cells, the first is 0.01, the last is [H_max], cell [i] is
    [0.01 + i * (H_max - 0.01) / 299] and two consecutive cells differ by
    the same step; on doubles with [H_max = 1.0] the first sample is the
    double 0.01, the last is 1.0, and the spacing is the step up to one unit
    in the last place; on doubles at every position of the [H_max] slider
    the first sample is 0.01 and the last is [H_max]; and in every
    arithmetic the array has 300 cells, the last of which is [H_max]
    itself. *)
Theorem C2_head_samples :
  (forall H_max : R,
      length (H_vals (Num H_max)) = 300%nat
      /\ nth 0 (H_vals (Num H_max)) NaN = Num 0.01
      /\ nth 299 (H_vals (Num H_max)) NaN = Num H_max
      /\ (forall i, (i < 300)%nat ->
            nth i (H_vals (Num H_max)) NaN
            = Num (0.01 + INR i * ((H_max - 0.01) / 299)))
      /\ (forall i, (i < 299)%nat ->
            exists h h' : R,
              nth i (H_vals (Num H_max)) NaN = Num h
              /\ nth (S i) (H_vals (Num H_max)) NaN = Num h'
              /\ h' - h = (H_max - 0.01) / 299))
  /\ (length (H_vals 1.0%float) = 300%nat
      /\ nth 0 (H_vals 1.0%float) PrimFloat.nan = 0.01%float
      /\ nth 299 (H_vals 1.0%float) PrimFloat.nan = 1.0%float
      /\ evenly_spaced ((1.0 - 0.01) / 299)%float 0x1p-52%float
           (H_vals 1.0%float) = true)
  /\ forallb (fun q =>
                PrimFloat.eqb (nth 0 (H_vals (lit q)) PrimFloat.nan) 0.01
                && PrimFloat.eqb (nth 299 (H_vals (lit q)) PrimFloat.nan) (lit q))
             H_max_positions = true
  /\ (forall (F : Type) (A : Arith F) (H_max d : F),
         length (H_vals H_max) = 300%nat /\ nth 299 (H_vals H_max) d = H_max).
Proof.
  split.
  - intros H_max.
    refine (conj _ (conj _ (conj _ (conj _ _)))).
    + apply H_vals_length.
    + apply H_vals_exact_first.
    + apply H_vals_exact_last.
    + intros i Hi. apply H_vals_exact_nth, Hi.
    + intros i Hi. apply H_vals_exact_spacing, Hi.
  - refine (conj (conj _ (conj _ (conj _ _))) (conj _ _)).
    + apply H_vals_length.
    + exact H_vals_b64_unit_first.
    + exact H_vals_b64_unit_last.
    + exact H_vals_b64_unit_spacing.
    + exact H_vals_b64_slider_ends.
    + intros F A H_max d. split; [apply H_vals_length |].
      unfold H_vals. change 299%nat with (300 - 1)%nat.
      apply linspace_nth_last. lia.
Qed.

Lemma C2_head_samples_witness :
  exists h h' : R,
    nth 7 (H_vals (Num 1)) NaN = Num h
    /\ nth 8 (H_vals (Num 1)) NaN = Num h'
    /\ h' - h = (1 - 0.01) / 299.
Proof.
  apply (proj2 (proj2 (proj2 (proj2 (proj1 C2_head_samples 1))))). lia.
Defined.

(** C3, as stated, fails: with [H_max = 1] the last sample is [H_max]
    itself, so no sample range strictly below [H_max] holds, in exact
    arithmetic and on doubles alike; and below 0.01 (here [H_max = 0.005])
    the first sample 0.01 is above [H_max], so [H_max] bounds the samples
    from above only from 0.01 on. *)
Lemma C3_counterexample :
  0 < 1
  /\ ~ (exists lo : R,
          0 < lo /\
          forall H, In H (H_vals (Num 1)) -> xlt (Num lo) H /\ xlt H (Num 1))
  /\ existsb (fun H => negb (PrimFloat.ltb H 1.0)) (H_vals 1.0%float) = true
  /\ (0 < 0.005
      /\ In (Num 0.01) (H_vals (Num 0.005))
      /\ ~ xle (Num 0.01) (Num 0.005)).
Proof.
  refine (conj _ (conj _ (conj _ (conj _ (conj _ _))))).
  - lra.
  - intros [lo [_ Hall]].
    destruct (Hall _ (H_vals_exact_In_last 1)) as [_ Hlt].
    cbn [xlt] in Hlt. lra.
  - vm_compute. reflexivity.
  - lra.
  - apply H_vals_exact_In_first.
  - cbn [xle]. lra.
Qed.

(** C3, amended. For every evaluation with [H_max >= 0.01], every head
    sample [H] lies in the closed range from the positive lower bound 0.01
    to [H_max]: [0.01 <= H <= H_max], and both ends are samples (the first
    and the last).  On doubles, at every position of the [H_max] slider,
    every sample is between the doubles 0.01 and [H_max], ends included. *)
Theorem C3_head_samples_in_closed_range :
  (forall H_max : R,
      0.01 <= H_max ->
      (forall H, In H (H_vals (Num H_max)) ->
                 xle (Num 0.01) H /\ xle H (Num H_max))
      /\ In (Num 0.01) (H_vals (Num H_max))
      /\ In (Num H_max) (H_vals (Num H_max)))
  /\ forallb (fun q =>
                forallb (fun H => PrimFloat.leb 0.01 H && PrimFloat.leb H (lit q))
                        (H_vals (lit q)))
             H_max_positions = true.
Proof.
  split.
  - intros H_max Hmax. refine (conj _ (conj _ _)).
    + intros H Hin. apply H_vals_exact_range; assumption.
    + apply H_vals_exact_In_first.
    + apply H_vals_exact_In_last.
  - exact H_vals_b64_slider_range.
Qed.

Lemma C3_head_samples_in_closed_range_witness :
  (forall H, In H (H_vals (Num 1)) -> xle (Num 0.01) H /\ xle H (Num 1))
  /\ In (Num 0.01) (H_vals (Num 1))
  /\ In (Num 1) (H_vals (Num 1)).
Proof. apply (proj1 C3_head_samples_in_closed_range). lra. Defined.









(** C8. For [Cd = 0.5], [b = 2.0], [H = 0.6] the discharge is 2.06 to two
    decimals: the number of exact arithmetic lies strictly between 2.055
    and 2.065, and the double Python computes is
    [2.0586208975913944], between the same bounds. *)
Theorem C8_worked_example :
  (xlt (Num 2.055) (broad_crested_weir_Q (lit 2.0) (lit 0.6) (lit 0.5))
   /\ xlt (broad_crested_weir_Q (lit 2.0) (lit 0.6) (lit 0.5)) (Num 2.065))
  /\ broad_crested_weir_Q (lit 2.0) (lit 0.6) (lit 0.5)
     = 2.0586208975913944%float
  /\ strictly_between 2.055%float 2.065%float
       (broad_crested_weir_Q (lit 2.0) (lit 0.6) (lit 0.5)) = true.
Proof.
  refine (conj _ (conj _ _)).
  - change (lit 2.0) with (Num 2.0). change (lit 0.6) with (Num 0.6).
    change (lit 0.5) with (Num 0.5).
    rewrite weir_Q_exact by lra. unfold Q_formula. cbn [xlt].
    destruct (sqrt_between (2 * 9.81 * 0.6) 3.43 3.44) as [Hlo Hhi]; lra.
  - vm_compute. reflexivity.
  - vm_compute. reflexivity.
Qed.

(** C9, as stated, fails on doubles: with [Cd = b = 1e-200] and
    [H = 1e308], all above zero, the product [Cd * b] underflows to zero,
    the argument [2 * 9.81 * H] overflows to infinity, which is not
    negative, its square root is infinity, and [0 * infinity] is nan. *)
Lemma C9_counterexample :
  (PrimFloat.ltb 0 1e-200 = true /\ PrimFloat.ltb 0 1e308 = true)
  /\ (1e-200 * 1e-200 = 0)%float
  /\ (of_int 2 * g * 1e308%float)%A = PrimFloat.infinity
  /\ np_sqrt (of_int 2 * g * 1e308%float)%A = PrimFloat.infinity
  /\ is_nan (broad_crested_weir_Q 1e-200%float 1e308%float 1e-200%float) = true.
Proof.
  refine (conj (conj _ _) (conj _ (conj _ (conj _ _)))); vm_compute; reflexivity.
Qed.

(** C9, amended. For every [H > 0] the argument of the square root,
    [2 * 9.81 * H], is not negative, so [np.sqrt] stays in its domain and
    never returns NaN.  In exact arithmetic, where NaN stands for a domain
    error, the discharge is then a number for all [Cd] and [b].  On
    doubles, for every double [H > 0], the argument is zero or above and
    the square root is not nan, and the discharge is zero or above and not
    nan whenever the product [Cd * b * H] is a positive finite double.  For
    [Cd = 0.5], [b = 1.0], [H = 0.01] the result is small and strictly
    positive: between 0.0022 and 0.0023 in exact arithmetic, and the double
    [0.00221472345903501], which is not nan. *)
Theorem C9_no_domain_error :
  (forall Cd b H : R,
      0 < H ->
      xle (Num 0) (of_int 2 * g * Num H)%A
      /\ is_nan (np_sqrt (of_int 2 * g * Num H)%A) = false
      /\ is_nan (broad_crested_weir_Q (Num b) (Num H) (Num Cd)) = false)
  /\ (forall Cd b H : PrimFloat.float,
         ltb (of_int 0) H = true ->
         leb (of_int 0) (of_int 2 * g * H)%A = true
         /\ is_nan (np_sqrt (of_int 2 * g * H)%A) = false
         /\ (ltb (of_int 0) (Cd * b * H)%A = true ->
             ltb (Cd * b * H)%A PrimFloat.infinity = true ->
             leb (of_int 0) (broad_crested_weir_Q b H Cd) = true
             /\ is_nan (broad_crested_weir_Q b H Cd) = false))
  /\ (xlt (Num 0) (broad_crested_weir_Q (lit 1.0) (lit 0.01) (lit 0.5))
      /\ xlt (Num 0.0022) (broad_crested_weir_Q (lit 1.0) (lit 0.01) (lit 0.5))
      /\ xlt (broad_crested_weir_Q (lit 1.0) (lit 0.01) (lit 0.5)) (Num 0.0023))
  /\ (broad_crested_weir_Q (lit 1.0) (lit 0.01) (lit 0.5)
      = 0.00221472345903501%float
      /\ is_nan (broad_crested_weir_Q (lit 1.0) (lit 0.01) (lit 0.5)
                 : PrimFloat.float) = false
      /\ strictly_between 0%float 0.0023%float
           (broad_crested_weir_Q (lit 1.0) (lit 0.01) (lit 0.5)) = true).
Proof.
  refine (conj _ (conj _ (conj _ _))).
  - intros Cd b H HH. refine (conj _ (conj _ _)).
    + rewrite g_exact. cbn [xle mul of_int xreal_arith xlift2]. lra.
    + rewrite g_exact. cbn [mul of_int np_sqrt is_nan xreal_arith xlift2].
      rewrite xsqrt_Num by lra. reflexivity.
    + rewrite weir_Q_exact by lra. reflexivity.
  - intros Cd b H HH.
    change (ltb (of_int 0) H) with (0 <? H)%float in HH.
    destruct (sqrt_argument_b64 H HH) as [Harg Hroot].
    refine (conj _ (conj _ _)).
    + apply (leb_zero_nonneg _ Harg).
    + apply (is_nan_nonneg _ Hroot).
    + intros Hpos Hfin.
      pose proof (weir_Q_b64_nonneg b H Cd HH Hpos Hfin) as HQ.
      split; [apply (leb_zero_nonneg _ HQ) | apply (is_nan_nonneg _ HQ)].
  - change (lit 1.0) with (Num 1.0). change (lit 0.01) with (Num 0.01).
    change (lit 0.5) with (Num 0.5).
    rewrite weir_Q_exact by lra. unfold Q_formula. cbn [xlt].
    destruct (sqrt_between (2 * 9.81 * 0.01) 0.44 0.46) as [Hlo Hhi]; lra.
  - refine (conj _ (conj _ _)); vm_compute; reflexivity.
Qed.

Lemma C9_no_domain_error_witness :
  xle (Num 0) (of_int 2 * g * Num 0.01)%A
  /\ is_nan (np_sqrt (of_int 2 * g * Num 0.01)%A) = false
  /\ is_nan (broad_crested_weir_Q (Num 1.0) (Num 0.01) (Num 0.5)) = false.
Proof. apply (proj1 C9_no_domain_error). lra. Defined.

(** C10. The head samples of an evaluation depend on [H_max] alone: two
    runs that differ only in [Cd] and [b] hand the same head array to the
    plot, and their discharge arrays have the same length, 300, as the
    heads.  This holds in every arithmetic, the exact one and the doubles
    included. *)
Theorem C10_heads_independent_of_Cd_b
  (F : Type) (A : Arith F) (Cd b Cd' b' H_max : F) :
  fst (plot_broad_weir Cd b H_max) = fst (plot_broad_weir Cd' b' H_max)
  /\ map fst (curve Cd b H_max) = map fst (curve Cd' b' H_max)
  /\ length (fst (plot_broad_weir Cd b H_max)) = 300%nat
  /\ length (snd (plot_broad_weir Cd b H_max)) = 300%nat
  /\ length (snd (plot_broad_weir Cd' b' H_max)) = 300%nat
  /\ length (curve Cd b H_max) = length (curve Cd' b' H_max).
Proof.
  assert (Hfst : forall c d : F,
             map fst (curve c d H_max) = H_vals H_max).
  { intros c d. unfold curve, plot_broad_weir. cbn [fst snd].
    unfold Q_vals. generalize (H_vals H_max) as l.
    induction l as [| h l IH]; [reflexivity |].
    cbn [map combine fst]. f_equal. exact IH. }
  refine (conj eq_refl (conj _ (conj _ (conj _ (conj _ _))))).
  - rewrite !Hfst. reflexivity.
  - apply H_vals_length.
  - apply Q_vals_length.
  - apply Q_vals_length.
  - unfold curve, plot_broad_weir. cbn [fst snd].
    rewrite !length_combine, !Q_vals_length, H_vals_length. reflexivity.
Qed.

(** * Further properties of the code cell *)

(** ** Binary64: zeros, infinities and nan through the discharge function

    Rounding a product or a square root shifts the mantissa by fewer bits
    than it has digits when the exponents of the operands are those of
    valid doubles and one factor is the constant [2 * 9.81]: the result is
    then not a zero.  With the signs, this settles for every double when
    [broad_crested_weir_Q] returns nan. *)

Section Rounding.

Import SpecFloat FloatOps FloatAxioms.

Local Open Scope Z_scope.

Lemma pow2_pos (p : positive) : 0 < 2 ^ Zpos p.
Proof. apply Z.pow_pos_nonneg; lia. Qed.

Lemma shr_1_half (mrs : shr_record) :
  0 <= shr_m mrs -> shr_m (shr_1 mrs) = shr_m mrs / 2.
Proof.
  destruct mrs as [m r s]. cbn [shr_m]. intros Hm.
  destruct m as [| [p | p |] | p]; cbn [shr_1 shr_m]; try lia;
    try reflexivity.
  - apply Z.div_unique with 1; lia.
  - apply Z.div_unique with 0; lia.
Qed.

(** [iter_pos shr_1 p] shifts the mantissa right by [p] bits. *)
Lemma iter_shr_1_div (p : positive) (mrs : shr_record) :
  0 <= shr_m mrs ->
  shr_m (iter_pos shr_1 p mrs) = shr_m mrs / 2 ^ Zpos p.
Proof.
  revert mrs. induction p as [p IH | p IH |]; intros mrs Hm; cbn [iter_pos].
  - pose proof (pow2_pos p) as Hp.
    pose proof (shr_1_nonneg mrs Hm) as H1.
    pose proof (iter_shr_1_nonneg p _ H1) as H2.
    rewrite (IH _ H2), (IH _ H1), shr_1_half by exact Hm.
    rewrite !Z.div_div by lia. f_equal.
    rewrite (Pos2Z.inj_xI p), Z.pow_add_r, Z.pow_twice_r by lia. lia.
  - pose proof (pow2_pos p) as Hp.
    pose proof (iter_shr_1_nonneg p _ Hm) as H2.
    rewrite (IH _ H2), (IH _ Hm).
    rewrite !Z.div_div by lia. f_equal.
    rewrite (Pos2Z.inj_xO p), Z.pow_twice_r. reflexivity.
  - rewrite shr_1_half by exact Hm. reflexivity.
Qed.

Lemma digits2_pos_bounds (p : positive) :
  2 ^ (Zpos (digits2_pos p) - 1) <= Zpos p < 2 ^ Zpos (digits2_pos p).
Proof.
  induction p as [p IH | p IH |]; cbn [digits2_pos];
    try (rewrite Pos2Z.inj_succ;
         set (d := Zpos (digits2_pos p)) in *;
         replace (Z.succ d - 1) with (Z.succ (d - 1)) by lia;
         rewrite !Z.pow_succ_r by lia; lia).
  cbn. lia.
Qed.

Lemma shr_fexp_exponent (pr em m e : Z) (l : location) :
  SpecFloat.emin pr em <= snd (shr_fexp pr em m e l).
Proof.
  unfold shr_fexp, shr, fexp.
  destruct (Z.max _ _ - e) as [| n | n] eqn:Hn; cbn [snd]; lia.
Qed.

Lemma shr_fexp_positive (pr em m e : Z) (l : location) :
  0 < m ->
  fexp pr em (Zdigits2 m + e) - e < Zdigits2 m ->
  0 < shr_m (fst (shr_fexp pr em m e l)).
Proof.
  intros Hm Hshift. unfold shr_fexp, shr.
  assert (H0 : shr_m (shr_record_of_loc m l) = m)
    by (destruct l as [| []]; reflexivity).
  destruct (fexp pr em (Zdigits2 m + e) - e) as [| n | n] eqn:Hn;
    cbn [fst]; try lia.
  rewrite iter_shr_1_div, H0 by lia.
  destruct m as [| p | p]; try lia. cbn [Zdigits2] in Hshift.
  pose proof (digits2_pos_bounds p) as [Hlo _].
  apply Z.div_str_pos. split; [apply pow2_pos |].
  apply Z.le_trans with (2 ^ (Zpos (digits2_pos p) - 1)); [| exact Hlo].
  apply Z.pow_le_mono_r; lia.
Qed.

(** Rounding a positive mantissa shifted by fewer bits than it has digits
    gives a finite number or an infinity of the same sign. *)
Lemma binary_round_aux_nonzero (pr em : Z) (s : bool) (m e : Z) (l : location) :
  0 < pr -> 0 < m ->
  fexp pr em (Zdigits2 m + e) - e < Zdigits2 m ->
  sf_nonzero_signed s (binary_round_aux pr em s m e l) = true.
Proof.
  intros Hpr Hm Hshift. unfold binary_round_aux.
  pose proof (shr_fexp_positive pr em m e l Hm Hshift) as H1.
  pose proof (shr_fexp_exponent pr em m e l) as He.
  destruct (shr_fexp pr em m e l) as [mrs' e']. cbn [fst snd] in H1, He.
  set (m2 := round_nearest_even (shr_m mrs') (loc_of_shr_record mrs')).
  assert (Hm2 : 0 < m2).
  { unfold m2, round_nearest_even.
    destruct (loc_of_shr_record mrs') as [| []];
      try destruct (Z.even _); lia. }
  assert (Hd2 : 0 < Zdigits2 m2) by (destruct m2; cbn; lia).
  assert (Hshift2 : fexp pr em (Zdigits2 m2 + e') - e' < Zdigits2 m2)
    by (unfold fexp; lia).
  pose proof (shr_fexp_positive pr em m2 e' loc_Exact Hm2 Hshift2) as H2.
  destruct (shr_fexp pr em m2 e' loc_Exact) as [mrs'' e'']. cbn [fst] in H2.
  destruct (shr_m mrs'') as [| p | p]; try lia.
  destruct (e'' <=? em - pr); cbn; apply eqb_reflx.
Qed.

(** Rounding never makes a nan. *)
Lemma binary_round_aux_not_nan (pr em : Z) (s : bool) (m e : Z) (l : location) :
  0 <= m -> sf_is_nan (binary_round_aux pr em s m e l) = false.
Proof.
  intros Hm. unfold binary_round_aux.
  pose proof (shr_fexp_nonneg pr em m e l Hm) as H1.
  destruct (shr_fexp pr em m e l) as [mrs' e']. cbn [fst] in H1.
  pose proof (shr_fexp_nonneg pr em _ e' loc_Exact
                (round_nearest_even_nonneg _ (loc_of_shr_record mrs') H1)) as H2.
  destruct (shr_fexp pr em _ e' loc_Exact) as [mrs'' e'']. cbn [fst] in H2.
  destruct (shr_m mrs'') as [| p | p]; [reflexivity | | lia].
  destruct (e'' <=? em - pr); reflexivity.
Qed.

(** The exponent of a finite double is at least [emin]. *)
Lemma valid_exponent (f : PrimFloat.float) (s : bool) (m : positive) (e : Z) :
  Prim2SF f = S754_finite s m e -> SpecFloat.emin prec emax <= e.
Proof.
  intros Hf. pose proof (Prim2SF_valid f) as Hv. rewrite Hf in Hv.
  cbn [valid_binary] in Hv. unfold bounded in Hv.
  apply andb_true_iff in Hv. destruct Hv as [Hc _].
  unfold canonical_mantissa in Hc. apply Z.eqb_eq in Hc.
  unfold fexp in Hc. lia.
Qed.

(** The comparisons and tests of doubles, read on the specification. *)
Lemma SFcompare_self (x : spec_float) :
  sf_is_nan x = false -> SFcompare x x = Some Eq.
Proof.
  destruct x as [s | s | | s m e]; cbn [sf_is_nan]; try discriminate;
    intros _; cbn [SFcompare]; destruct s; try reflexivity;
    rewrite Z.compare_refl, Pos.compare_cont_refl; reflexivity.
Qed.

Lemma is_nan_spec (f : PrimFloat.float) :
  PrimFloat.is_nan f = sf_is_nan (Prim2SF f).
Proof.
  unfold PrimFloat.is_nan. rewrite eqb_spec. unfold SFeqb.
  destruct (sf_is_nan (Prim2SF f)) eqn:Hn.
  - destruct (Prim2SF f); try discriminate. reflexivity.
  - rewrite SFcompare_self by exact Hn. reflexivity.
Qed.

Lemma eqb_zero_spec (f : PrimFloat.float) :
  (f =? 0)%float = sf_is_zero (Prim2SF f).
Proof.
  rewrite eqb_spec. change (Prim2SF 0) with (S754_zero false).
  destruct (Prim2SF f) as [s | s | | s m e]; try reflexivity;
    destruct s; reflexivity.
Qed.

Lemma eqb_infinity_spec (f : PrimFloat.float) :
  (f =? PrimFloat.infinity)%float = sf_is_pinf (Prim2SF f).
Proof.
  rewrite eqb_spec.
  change (Prim2SF PrimFloat.infinity) with (S754_infinity false).
  destruct (Prim2SF f) as [s | s | | s m e]; try reflexivity;
    destruct s; reflexivity.
Qed.

Lemma ltb_zero_negative (f : PrimFloat.float) :
  (f <? 0)%float = true -> sf_nonzero_signed true (Prim2SF f) = true.
Proof.
  rewrite ltb_spec. change (Prim2SF 0) with (S754_zero false).
  destruct (Prim2SF f) as [s | s | | s m e]; cbn; try discriminate;
    destruct s; (discriminate || reflexivity).
Qed.

Lemma ltb_zero_nonzero (f : PrimFloat.float) :
  (0 <? f)%float = true -> sf_nonzero_signed false (Prim2SF f) = true.
Proof.
  rewrite ltb_spec. change (Prim2SF 0) with (S754_zero false).
  destruct (Prim2SF f) as [s | s | | s m e]; cbn; try discriminate;
    destruct s; (discriminate || reflexivity).
Qed.

(** [2 * 9.81] times a double that is not a zero keeps the sign and is not
    a zero: the product cannot underflow. *)
Lemma sqrt_argument_nonzero_b64 (s : bool) (H : PrimFloat.float) :
  sf_nonzero_signed s (Prim2SF H) = true ->
  sf_nonzero_signed s (Prim2SF (2 * 9.81 * H)%float) = true.
Proof.
  intros HH. rewrite mul_spec.
  change (Prim2SF (2 * 9.81)%float)
    with (S754_finite false 5522539043063071 (-48)).
  destruct (Prim2SF H) as [s' | s' | | s' m e] eqn:HP; cbn in HH;
    try discriminate; apply eqb_prop in HH; subst s'.
  - cbn. apply eqb_reflx.
  - unfold SF64mul. cbn [SFmul xorb].
    pose proof (valid_exponent _ _ _ _ HP) as He.
    apply binary_round_aux_nonzero; [reflexivity | lia |].
    cbn [Zdigits2].
    pose proof (digits2_pos_bounds (5522539043063071 * m)) as [_ Hup].
    assert (Hbig : 2 ^ 52 <= Zpos (5522539043063071 * m)).
    { rewrite Pos2Z.inj_mul. change (2 ^ 52) with 4503599627370496. nia. }
    assert (Hd : 52 < Zpos (digits2_pos (5522539043063071 * m))).
    { apply (Z.pow_lt_mono_r_iff 2); lia. }
    unfold fexp. change (SpecFloat.emin prec emax) with (-1074) in *.
    change prec with 53. lia.
Qed.

End Rounding.

Section DischargeOnDoubles.

Import SpecFloat FloatOps FloatAxioms.

Local Open Scope Z_scope.

(** The square root of a finite positive double is positive, not a zero. *)
Lemma SFsqrt_finite_positive (m : positive) (e : Z) :
  SpecFloat.emin prec emax <= e ->
  sf_nonzero_signed false (SFsqrt prec emax (S754_finite false m e)) = true.
Proof.
  intros He. cbn [SFsqrt]. unfold SFsqrt_core_binary.
  set (e' := Z.min (fexp prec emax (Z.div2 (Zdigits2 (Zpos m) + e + 1)))
                   (Z.div2 e)).
  set (m' := match e - 2 * e' with
             | Z0 => Zpos m
             | Zpos _ => Z.shiftl (Zpos m) (e - 2 * e')
             | Zneg _ => 0
             end).
  change (SpecFloat.emin prec emax) with (-1074) in He.
  assert (He' : -1074 <= e' /\ 2 * e' <= e).
  { unfold e', fexp. rewrite !Z.div2_div.
    change (SpecFloat.emin prec emax) with (-1074). change prec with 53.
    pose proof (Z.div_mod e 2 ltac:(lia)) as Hdm.
    pose proof (Z.mod_pos_bound e 2 ltac:(lia)) as Hmod. lia. }
  assert (Hm' : 0 < m').
  { unfold m'. destruct (e - 2 * e') as [| p | p] eqn:Hs; try lia.
    rewrite Z.shiftl_mul_pow2 by lia.
    pose proof (pow2_pos p). nia. }
  pose proof (Z.sqrtrem_sqrt m') as Hq.
  destruct (Z.sqrtrem m') as [q r]. cbn [fst] in Hq.
  assert (Hqpos : 0 < q) by (rewrite Hq; apply Z.sqrt_pos; exact Hm').
  apply binary_round_aux_nonzero; [reflexivity | exact Hqpos |].
  assert (Hd : 0 < Zdigits2 q) by (destruct q; cbn; lia).
  unfold fexp. change (SpecFloat.emin prec emax) with (-1074).
  change prec with 53. lia.
Qed.

(** For every double [H > 0] the square root of [2 * 9.81 * H] is positive:
    finite and above zero, or infinity. *)
Lemma sqrt_positive_b64 (H : PrimFloat.float) :
  (0 <? H)%float = true ->
  sf_nonzero_signed false
    (Prim2SF (PrimFloat.sqrt (2 * 9.81 * H))) = true.
Proof.
  intros HH.
  pose proof (sqrt_argument_nonzero_b64 false H (ltb_zero_nonzero H HH)) as Ha.
  rewrite sqrt_spec. unfold SF64sqrt.
  destruct (Prim2SF (2 * 9.81 * H)%float) as [s | s | | s m e] eqn:HP;
    cbn [sf_nonzero_signed] in Ha; try discriminate;
    apply eqb_prop in Ha; subst s.
  - reflexivity.
  - apply SFsqrt_finite_positive. exact (valid_exponent _ _ _ _ HP).
Qed.

Lemma SFsqrt_negative (x : spec_float) :
  sf_nonzero_signed true x = true -> SFsqrt prec emax x = S754_nan.
Proof.
  destruct x as [s | s | | s m e]; cbn; try discriminate;
    destruct s; (discriminate || reflexivity).
Qed.

Lemma SFmul_nan_r (x : spec_float) : SFmul prec emax x S754_nan = S754_nan.
Proof. destruct x; reflexivity. Qed.

(** The product of any double with a positive one: nan exactly for a nan
    and for zero times infinity. *)
Lemma SFmul_positive_is_nan (x y : spec_float) :
  sf_nonzero_signed false y = true ->
  sf_is_nan (SFmul prec emax x y)
  = (sf_is_nan x || (sf_is_zero x && sf_is_pinf y))%bool.
Proof.
  destruct y as [sy | sy | | sy my ey]; cbn [sf_nonzero_signed];
    try discriminate; intros Hy; apply eqb_prop in Hy; subst sy;
    destruct x as [sx | sx | | sx mx ex]; try reflexivity.
  cbn [SFmul sf_is_nan sf_is_zero sf_is_pinf orb andb].
  apply binary_round_aux_not_nan. lia.
Qed.

Lemma SFmul_comm (x y : spec_float) :
  SFmul prec emax x y = SFmul prec emax y x.
Proof.
  destruct x as [sx | sx | | sx mx ex], y as [sy | sy | | sy my ey];
    cbn [SFmul]; rewrite ?(xorb_comm sx sy); try reflexivity.
  rewrite (Pos.mul_comm mx my), (Z.add_comm ex ey). reflexivity.
Qed.

(** The product of doubles does not depend on the order of its factors. *)
Lemma mul_comm_b64 (x y : PrimFloat.float) : (x * y = y * x)%float.
Proof.
  apply Prim2SF_inj. rewrite !mul_spec. apply SFmul_comm.
Qed.

(** A head below zero, or a nan, gives nan whatever [Cd] and [b]. *)
Lemma weir_Q_b64_negative_head (b H Cd : PrimFloat.float) :
  (H <? 0)%float = true ->
  PrimFloat.is_nan (broad_crested_weir_Q b H Cd) = true.
Proof.
  intros HH. rewrite weir_Q_b64, is_nan_spec, mul_spec, sqrt_spec.
  unfold SF64sqrt, SF64mul.
  rewrite (SFsqrt_negative _
             (sqrt_argument_nonzero_b64 true H (ltb_zero_negative H HH))).
  rewrite SFmul_nan_r. reflexivity.
Qed.

Lemma weir_Q_b64_nan_head (b H Cd : PrimFloat.float) :
  PrimFloat.is_nan H = true ->
  PrimFloat.is_nan (broad_crested_weir_Q b H Cd) = true.
Proof.
  intros HH. rewrite is_nan_spec in HH.
  rewrite weir_Q_b64, is_nan_spec, !mul_spec. unfold SF64mul.
  destruct (Prim2SF H); try discriminate.
  rewrite SFmul_nan_r. reflexivity.
Qed.

(** A head above zero gives nan exactly when the product [Cd * b * H] is
    nan, or is a zero while the square root is infinite. *)
Lemma weir_Q_b64_positive_head (b H Cd : PrimFloat.float) :
  (0 <? H)%float = true ->
  PrimFloat.is_nan (broad_crested_weir_Q b H Cd)
  = (PrimFloat.is_nan (Cd * b * H)
     || ((Cd * b * H =? 0)%float
         && (PrimFloat.sqrt (2 * 9.81 * H) =? PrimFloat.infinity)%float))%bool.
Proof.
  intros HH. rewrite weir_Q_b64.
  rewrite !is_nan_spec, eqb_zero_spec, eqb_infinity_spec.
  rewrite (mul_spec (Cd * b * H)). unfold SF64mul.
  apply SFmul_positive_is_nan, sqrt_positive_b64, HH.
Qed.

(** A zero head gives nan when the product [Cd * b * H] is nan, that is
    when [Cd * b] is nan or infinite, and a zero otherwise. *)
Lemma weir_Q_b64_zero_head (b H Cd : PrimFloat.float) :
  (H =? 0)%float = true ->
  PrimFloat.is_nan (broad_crested_weir_Q b H Cd)
  = PrimFloat.is_nan (Cd * b * H)
  /\ (PrimFloat.is_nan (broad_crested_weir_Q b H Cd) = false ->
      (broad_crested_weir_Q b H Cd =? 0)%float = true).
Proof.
  intros HH. rewrite eqb_zero_spec in HH.
  rewrite weir_Q_b64, !is_nan_spec, eqb_zero_spec.
  rewrite (mul_spec (Cd * b * H)), sqrt_spec, (mul_spec (2 * 9.81)).
  rewrite (mul_spec (Cd * b) H).
  change (Prim2SF (2 * 9.81)%float)
    with (S754_finite false 5522539043063071 (-48)).
  unfold SF64mul, SF64sqrt.
  destruct (Prim2SF H) as [s | s | | s m e]; try discriminate.
  destruct (Prim2SF (Cd * b)%float) as [sc | sc | | sc mc ec];
    cbn; split; try reflexivity; try discriminate.
Qed.

End DischargeOnDoubles.

(** ** Exact arithmetic: more on the formula *)

Lemma Q_formula_zero_head (Cd b : R) : Q_formula Cd b 0 = 0.
Proof. unfold Q_formula. ring. Qed.






Lemma weir_Q_exact_nan_head (b Cd : xreal) :
  broad_crested_weir_Q b NaN Cd = NaN.
Proof. destruct b, Cd; reflexivity. Qed.

(** ** Reading an array through [map] *)

Lemma nth_map_in_range {A B : Type} (f : A -> B) (l : list A)
  (i : nat) (d : A) (d' : B) :
  (i < length l)%nat -> nth i (map f l) d' = f (nth i l d).
Proof.
  intros Hi. rewrite (nth_indep _ d' (f d)) by (rewrite length_map; exact Hi).
  apply map_nth.
Qed.


(** Cell [i] of the discharge array, in exact arithmetic. *)
Lemma Q_vals_exact_nth (Cd b H_max : R) (i : nat) :
  (i < 300)%nat ->
  nth i (Q_vals (Num Cd) (Num b) (Num H_max)) NaN
  = broad_crested_weir_Q (Num b)
      (Num (0.01 + INR i * ((H_max - 0.01) / 299))) (Num Cd).
Proof.
  intros Hi. unfold Q_vals.
  rewrite (nth_map_in_range _ _ i NaN NaN) by (rewrite H_vals_length; exact Hi).
  rewrite H_vals_exact_nth by exact Hi. reflexivity.
Qed.

(** * Properties beyond the claims *)

(** X1. The function is declared as [broad_crested_weir_Q(b, H, Cd)] and
    called with the width first and the coefficient last; exchanging the
    two arguments does not change the result, in exact arithmetic and bit
    for bit on doubles. *)
Theorem X1_width_and_coefficient_exchange :
  (forall b H Cd : xreal,
      broad_crested_weir_Q b H Cd = broad_crested_weir_Q Cd H b)
  /\ (forall b H Cd : PrimFloat.float,
         broad_crested_weir_Q b H Cd = broad_crested_weir_Q Cd H b).
Proof.
  split.
  - intros b H Cd. unfold broad_crested_weir_Q.
    destruct b as [b |], Cd as [Cd |], H as [H |]; try reflexivity.
    cbn -[xsqrt]. rewrite (Rmult_comm Cd b). reflexivity.
  - intros b H Cd. rewrite !weir_Q_b64, (mul_comm_b64 Cd b). reflexivity.
Qed.

(** X2. A head below zero makes the discharge NaN, for every [Cd] and
    [b], because [np.sqrt] is taken of a negative number; no error is
    raised.  In exact arithmetic the result is NaN exactly when [H < 0],
    and a zero head gives zero; on doubles every head below zero, and a
    nan head, gives nan. *)
Theorem X2_head_below_zero_gives_nan :
  (forall Cd b H : R,
      is_nan (broad_crested_weir_Q (Num b) (Num H) (Num Cd)) = true <-> H < 0)
  /\ (forall Cd b : R,
         broad_crested_weir_Q (Num b) (Num 0) (Num Cd) = Num 0)
  /\ (forall b H Cd : PrimFloat.float,
         PrimFloat.ltb H 0 = true \/ PrimFloat.is_nan H = true ->
         is_nan (broad_crested_weir_Q b H Cd) = true).
Proof.
  refine (conj _ (conj _ _)).
  - intros Cd b H. split.
    + intros Hnan. destruct (Rlt_le_dec H 0) as [Hlt | Hle]; [exact Hlt |].
      rewrite weir_Q_exact in Hnan by exact Hle. discriminate.
    + intros Hlt. rewrite weir_Q_negative_head by exact Hlt. reflexivity.
  - intros Cd b. rewrite weir_Q_exact by lra.
    rewrite Q_formula_zero_head. reflexivity.
  - intros b H Cd [Hneg | Hnan].
    + apply weir_Q_b64_negative_head, Hneg.
    + apply weir_Q_b64_nan_head, Hnan.
Qed.

Lemma X2_head_below_zero_gives_nan_witness :
  is_nan (broad_crested_weir_Q 2.0%float (-0.6)%float 0.5%float) = true.
Proof.
  apply (proj2 (proj2 X2_head_below_zero_gives_nan)).
  left. vm_compute. reflexivity.
Defined.

(** X3. On doubles, with a head that is not negative, the discharge is
    nan in these cases only: for [H > 0], when the product [Cd * b * H] is
    nan, or is a zero while the square root has overflowed to infinity;
    for [H = 0], when the product [Cd * b * H] is nan, and otherwise the
    discharge is a zero. *)
Theorem X3_nan_on_doubles_with_head_not_negative :
  (forall b H Cd : PrimFloat.float,
      PrimFloat.ltb 0 H = true ->
      is_nan (broad_crested_weir_Q b H Cd)
      = (PrimFloat.is_nan (Cd * b * H)
         || (PrimFloat.eqb (Cd * b * H) 0
             && PrimFloat.eqb (np_sqrt (of_int 2 * g * H)%A)
                              PrimFloat.infinity))%bool)
  /\ (forall b H Cd : PrimFloat.float,
         PrimFloat.eqb H 0 = true ->
         is_nan (broad_crested_weir_Q b H Cd) = PrimFloat.is_nan (Cd * b * H)
         /\ (is_nan (broad_crested_weir_Q b H Cd) = false ->
             PrimFloat.eqb (broad_crested_weir_Q b H Cd) 0 = true)).
Proof.
  split.
  - intros b H Cd HH. apply (weir_Q_b64_positive_head b H Cd HH).
  - intros b H Cd HH. apply (weir_Q_b64_zero_head b H Cd HH).
Qed.

Lemma X3_nan_on_doubles_with_head_not_negative_witness :
  is_nan (broad_crested_weir_Q 2.0%float 0.6%float 0.5%float)
  = (PrimFloat.is_nan (0.5 * 2.0 * 0.6)
     || (PrimFloat.eqb (0.5 * 2.0 * 0.6) 0
         && PrimFloat.eqb (np_sqrt (of_int 2 * g * 0.6%float)%A)
                          PrimFloat.infinity))%bool.
Proof.
  apply (proj1 X3_nan_on_doubles_with_head_not_negative).
  vm_compute. reflexivity.
Defined.






(** Every discharge of the curve is the formula at a head between the two
    ends of the range, in exact arithmetic. *)
Lemma Q_vals_exact_In (Cd b H_max : R) (q : xreal) :
  0 <= H_max ->
  In q (Q_vals (Num Cd) (Num b) (Num H_max)) ->
  exists h : R,
    Rmin 0.01 H_max <= h <= Rmax 0.01 H_max /\ q = Num (Q_formula Cd b h).
Proof.
  intros Hmax Hin. unfold Q_vals in Hin. apply in_map_iff in Hin.
  destruct Hin as [H [<- HinH]].
  destruct (H_vals_exact_In H_max H HinH) as [i [Hi ->]].
  pose proof (INR_index_bounds i Hi) as [Hlo Hhi].
  exists (0.01 + INR i * ((H_max - 0.01) / 299)).
  assert (Hrange : Rmin 0.01 H_max <= 0.01 + INR i * ((H_max - 0.01) / 299)
                   <= Rmax 0.01 H_max).
  { unfold Rmin, Rmax. destruct (Rle_dec 0.01 H_max); split; nra. }
  split; [exact Hrange |].
  apply weir_Q_exact. unfold Rmin in Hrange.
  destruct (Rle_dec 0.01 H_max); lra.
Qed.



(** X8. A negative [H_max] is not rejected: the samples then run down
    from 0.01 through zero and the discharges of the samples below zero are
    NaN.  In exact arithmetic the plotted discharges hold a NaN exactly
    when [H_max < 0]; on doubles, for every [H_max] below zero and all
    [Cd] and [b], the last discharge, the one at [H_max], is nan. *)
Theorem X8_negative_H_max_gives_nan :
  (forall Cd b H_max : R,
      existsb is_nan (snd (plot_broad_weir (Num Cd) (Num b) (Num H_max))) = true
      <-> H_max < 0)
  /\ (forall (Cd b H_max d : PrimFloat.float),
         PrimFloat.ltb H_max 0 = true ->
         is_nan (nth 299 (snd (plot_broad_weir Cd b H_max)) d) = true).
Proof.
  split.
  - intros Cd b H_max. cbn [plot_broad_weir snd]. split.
    + intros Hex. apply existsb_exists in Hex. destruct Hex as [q [Hin Hnan]].
      destruct (Rlt_le_dec H_max 0) as [Hlt | Hle]; [exact Hlt |].
      destruct (Q_vals_exact_In Cd b H_max q Hle Hin) as [h [_ ->]].
      discriminate.
    + intros Hlt. apply existsb_exists.
      exists (broad_crested_weir_Q (Num b) (Num H_max) (Num Cd)). split.
      * unfold Q_vals.
        apply (in_map (fun H => broad_crested_weir_Q (Num b) H (Num Cd))).
        apply H_vals_exact_In_last.
      * rewrite weir_Q_negative_head by exact Hlt. reflexivity.
  - intros Cd b H_max d Hneg. cbn [plot_broad_weir snd]. unfold Q_vals.
    rewrite (nth_map_in_range (fun H => broad_crested_weir_Q b H Cd)
               _ 299 H_max d) by (rewrite H_vals_length; lia).
    unfold H_vals. change 299%nat with (300 - 1)%nat.
    rewrite linspace_nth_last by lia.
    apply weir_Q_b64_negative_head, Hneg.
Qed.

Lemma X8_negative_H_max_gives_nan_witness :
  is_nan (nth 299 (snd (plot_broad_weir 0.5 1.0 (-1.0))%float)
              PrimFloat.zero) = true.
Proof.
  apply (proj2 X8_negative_H_max_gives_nan). vm_compute. reflexivity.
Defined.

(** X9. Over the whole ranges of the three sliders the curve is well
    formed: for [Cd] in [0.4, 0.7], [b] in [0.1, 5.0] and [H_max] in
    [0.1, 2.0], in exact arithmetic, heads and discharges increase strictly
    along the curve and every discharge lies strictly between 0.00017 and
    43.9 cubic metres per second. *)
Theorem X9_curves_of_the_sliders (Cd b H_max : R) :
  FloatSlider.in_range Cd_slider Cd ->
  FloatSlider.in_range b_slider b ->
  FloatSlider.in_range H_max_slider H_max ->
  increasing xlt (fst (plot_broad_weir (Num Cd) (Num b) (Num H_max)))
  /\ increasing xlt (snd (plot_broad_weir (Num Cd) (Num b) (Num H_max)))
  /\ (forall q, In q (snd (plot_broad_weir (Num Cd) (Num b) (Num H_max))) ->
                xlt (Num 0.00017) q /\ xlt q (Num 43.9)).
Proof.
  unfold FloatSlider.in_range.
  change (Q2R (FloatSlider.min Cd_slider)) with 0.4.
  change (Q2R (FloatSlider.max Cd_slider)) with 0.7.
  change (Q2R (FloatSlider.min b_slider)) with 0.1.
  change (Q2R (FloatSlider.max b_slider)) with 5.0.
  change (Q2R (FloatSlider.min H_max_slider)) with 0.1.
  change (Q2R (FloatSlider.max H_max_slider)) with 2.0.
  intros HCd Hb Hmax. cbn [plot_broad_weir fst snd].
  refine (conj _ (conj _ _)).
  - apply H_vals_exact_increasing. lra.
  - apply (increasing_by_index xlt _ NaN). intros i Hi.
    rewrite Q_vals_length in Hi.
    rewrite !Q_vals_exact_nth by lia.
    pose proof (INR_index_bounds i ltac:(lia)) as [Hlo Hhi].
    rewrite !weir_Q_exact by (rewrite ?S_INR; nra). cbn [xlt].
    apply Q_formula_increasing; try lra; rewrite ?S_INR; nra.
  - intros q Hin.
    destruct (Q_vals_exact_In Cd b H_max q ltac:(lra) Hin) as [h [Hh ->]].
    rewrite Rmin_left, Rmax_right in Hh by lra.
    cbn [xlt]. unfold Q_formula.
    assert (Harg : 0 <= 2 * 9.81 * h) by lra.
    pose proof (sqrt_pos (2 * 9.81 * h)) as Hs.
    pose proof (sqrt_sqrt (2 * 9.81 * h) Harg) as Hss.
    set (r := sqrt (2 * 9.81 * h)) in *.
    assert (Hr : 0.44 < r < 6.27) by (split; nra).
    assert (Hc : 0.04 <= Cd * b <= 3.5) by (split; nra).
    assert (Hp : 0.0004 <= Cd * b * h <= 7) by (split; nra).
    split; nra.
Qed.

Lemma X9_curves_of_the_sliders_witness :
  increasing xlt (fst (plot_broad_weir (Num 0.5) (Num 1) (Num 1)))
  /\ increasing xlt (snd (plot_broad_weir (Num 0.5) (Num 1) (Num 1)))
  /\ (forall q, In q (snd (plot_broad_weir (Num 0.5) (Num 1) (Num 1))) ->
                xlt (Num 0.00017) q /\ xlt q (Num 43.9)).
Proof.
  apply X9_curves_of_the_sliders; unfold FloatSlider.in_range, Q2R; cbn; lra.
Defined.





